(** * workflow-sync-poc/common: the sync-and-reconcile engine

    A shallow embedding of [code/github.go] (package [common]) and of the
    [sync-workflows] command (package [main]), with the properties of the
    specification stated and settled against it.

    Go strings are byte sequences: they are modelled by [string] (a list of
    [ascii] bytes).  A Go [panic] and [log.Fatal] end the process: effectful
    code lives in a state monad whose outcomes are a value or a crash, both
    with the world reached so far. *)

From Stdlib Require Import ZArith String Ascii DecimalString Lia.
From stdpp Require Import base strings gmap list.

Open Scope string_scope.

#[local] Arguments String.append !s1 s2 : simpl nomatch.

(* ===================================================================== *)
(** * Go runtime pieces shared by both packages *)
(* ===================================================================== *)

Module golang.

(** The double quote, for messages that contain one. *)
Definition dq : string := String (ascii_of_nat 34) "".

(** Bytes used by the patterns. *)
Definition LF : ascii := ascii_of_nat 10.
Definition VT : ascii := ascii_of_nat 11.
Definition FF : ascii := ascii_of_nat 12.
Definition CR : ascii := ascii_of_nat 13.
Definition x80 : ascii := ascii_of_nat 128.
Definition x85 : ascii := ascii_of_nat 133.
Definition xA8 : ascii := ascii_of_nat 168.
Definition xA9 : ascii := ascii_of_nat 169.
Definition xC2 : ascii := ascii_of_nat 194.
Definition xE2 : ascii := ascii_of_nat 226.

(** A pure computation that may panic. *)
Inductive result (A : Type) : Type :=
| Ok (a : A)
| Panic (msg : string).
Arguments Ok {A} a.
Arguments Panic {A} msg.

(** [fmt.Sprintf("%v", n)] for an [int]. *)
Definition itoa (z : Z) : string := NilZero.string_of_int (Z.to_int z).

(** [strings.Join(elems, sep)]. *)
Fixpoint Join (elems : list string) (sep : string) : string :=
  match elems with
  | [] => ""
  | [e] => e
  | e :: rest => e +:+ sep +:+ Join rest sep
  end.

(** [strings.Split(s, sep)] for a separator of one byte: the pieces of [s]
    between the occurrences of [sep]; never empty. *)
Fixpoint Split (s : string) (sep : ascii) : list string :=
  match s with
  | "" => [""]
  | String c rest =>
      if Ascii.eqb c sep then "" :: Split rest sep
      else match Split rest sep with
           | [] => [String c ""]
           | piece :: pieces => String c piece :: pieces
           end
  end.

(** [strings.Contains(s, string(c))], used to state properties. *)
Fixpoint contains_byte (c : ascii) (s : string) : bool :=
  match s with
  | "" => false
  | String d rest => Ascii.eqb d c || contains_byte c rest
  end.

End golang.
Export golang.

(* ===================================================================== *)
(** * Package [regexp]: the fragment the program uses *)
(* ===================================================================== *)

Module regexp.

(** Syntax of the patterns; a class is a predicate on one byte. *)
Inductive Regexp : Type :=
| Void
| Eps
| Class (p : ascii -> bool)
| Cat (r1 r2 : Regexp)
| Alt (r1 r2 : Regexp)
| Star (r : Regexp).

Definition Lit (c : ascii) : Regexp := Class (Ascii.eqb c).
Definition Plus (r : Regexp) : Regexp := Cat r (Star r).
Definition Opt (r : Regexp) : Regexp := Alt r Eps.

(** [.] without the [s] flag: any byte but the line feed. *)
Definition Dot : Regexp := Class (fun c => negb (Ascii.eqb c LF)).

(** A literal string. *)
Fixpoint Str (s : string) : Regexp :=
  match s with
  | "" => Eps
  | String c rest => Cat (Lit c) (Str rest)
  end.

(** The language of a pattern. *)
Inductive matches : Regexp -> string -> Prop :=
| m_eps : matches Eps ""
| m_class p c : p c = true -> matches (Class p) (String c "")
| m_cat r1 r2 s1 s2 :
    matches r1 s1 -> matches r2 s2 -> matches (Cat r1 r2) (s1 +:+ s2)
| m_alt_l r1 r2 s : matches r1 s -> matches (Alt r1 r2) s
| m_alt_r r1 r2 s : matches r2 s -> matches (Alt r1 r2) s
| m_star_nil r : matches (Star r) ""
| m_star_cons r s1 s2 :
    matches r s1 -> matches (Star r) s2 -> matches (Star r) (s1 +:+ s2).

Fixpoint nullable (r : Regexp) : bool :=
  match r with
  | Void => false
  | Eps => true
  | Class _ => false
  | Cat r1 r2 => nullable r1 && nullable r2
  | Alt r1 r2 => nullable r1 || nullable r2
  | Star _ => true
  end.

(** Brzozowski derivative: what is left of [r] after reading [c]. *)
Fixpoint deriv (c : ascii) (r : Regexp) : Regexp :=
  match r with
  | Void => Void
  | Eps => Void
  | Class p => if p c then Eps else Void
  | Cat r1 r2 =>
      if nullable r1 then Alt (Cat (deriv c r1) r2) (deriv c r2)
      else Cat (deriv c r1) r2
  | Alt r1 r2 => Alt (deriv c r1) (deriv c r2)
  | Star r1 => Cat (deriv c r1) (Star r1)
  end.

(** Some prefix of [s] is matched by [r]. *)
Fixpoint match_here (r : Regexp) (s : string) : bool :=
  nullable r ||
  match s with
  | "" => false
  | String c rest => match_here (deriv c r) rest
  end.

(** [Regexp.MatchString]: [s] contains a match of [r] (the pattern is
    not anchored: a match may start and end anywhere). *)
Fixpoint MatchString (r : Regexp) (s : string) : bool :=
  match_here r s ||
  match s with
  | "" => false
  | String _ rest => MatchString r rest
  end.

End regexp.

(* ===================================================================== *)
(** * Data, world and effects of package [common] *)
(* ===================================================================== *)

Module world.

(** A non-nil Go [error] is its message; [None] is [nil]. *)
Definition error : Type := string.

(** What the program reads of a [*gogithub.Response]: the status code, and
    the text that [%v] prints for it. *)
Record Response : Type := mkResponse {
  StatusCode : Z;
  ResponseText : string;
}.

Record Repository : Type := mkRepository {
  DefaultBranch : option string;
}.

(** [repoInfo.GetDefaultBranch()]: the empty string for a nil receiver or
    a nil field. *)
Definition GetDefaultBranch (repoInfo : option Repository) : string :=
  match repoInfo with
  | Some r => default "" (DefaultBranch r)
  | None => ""
  end.

Record Branch : Type := mkBranch {
  BranchName : string;
}.

(** The fields of [*gogithub.PullRequest] the report dereferences. *)
Record PullRequest : Type := mkPullRequest {
  Title : option string;
  HTMLURL : option string;
  Number : option Z;
}.

Record NewPullRequest : Type := mkNewPullRequest {
  NewTitle : string;
  NewHead : string;
  NewBase : string;
  NewBody : string;
  NewMaintainerCanModify : bool;
}.

(** The files of one directory, by name, and the directories of the local
    file system, by path.  A cloned repository is a tree of directories
    keyed by the path relative to its root ([""] is the root). *)
Abbreviation Dir := (gmap string string).
Abbreviation FS := (gmap string (gmap string string)).

(** Everything the program does to the outside, in order. *)
Inductive Event : Type :=
| EvLog (line : string)
| EvExec (name : string) (args : list string) (err : option error)
| EvGetRepository (owner name : string)
| EvGetBranch (owner name branch : string)
| EvCreatePullRequest (owner name : string) (pull : NewPullRequest)
| EvPathExists (path : string) (found : bool)
| EvDeleteDirectory (path : string)
| EvCreateDirectory (path : string)
| EvDeleteSpecificFiles (dir : string)
| EvCopySpecificFiles (src dst : string)
| EvSetupGitHubUser
| EvSetOrigin (repo : string)
| EvAddOrMoveTag (tag : string) (err : option error)
| EvWriteJobSummary (summary : string).

(** The world: the directories of the local file system, the tags of the
    source repository, and the events so far. *)
Record World : Type := mkWorld {
  fs : FS;
  tags : gmap string string;
  trace : list Event;
}.

(** The answers of the outside; those that may change during a run are
    functions of the events so far.
    - [GH_AUTH_TOKEN]: the environment variable;
    - [head_commit]: the current commit of the source repository;
    - [exec_status]: how a command other than [git clone] ends;
    - [checkout_tree]: the working files after a [git checkout];
    - [remote_tree]: the tree served at a clone URL, if any;
    - [api_get_repository], [api_get_branch], [api_create_pull_request]:
      the three results of the calls of the API client;
    - [io_failure]: the I/O error that stops a file operation, with the
      names of the files handled before it;
    - [tag_failure], [origin_failure]: the errors of [AddOrMoveTag] and
      [SetOrigin];
    - [getwd]: [os.Getwd()];
    - [current_repository], [latest_version_tag], [read_file]: the
      results of [GetCurrentRepository], [GetLatestVersionTag] and
      [ReadFile], which are not in the sources;
    - [json_strings]: [json.Unmarshal] into a [[]string];
    - [elapsed]: [time.Since(startTime)], in nanoseconds. *)
Record Env : Type := mkEnv {
  GH_AUTH_TOKEN : string;
  head_commit : string;
  exec_status : list Event -> string -> list string -> option error;
  checkout_tree : list Event -> FS -> FS;
  remote_tree : list Event -> string -> option FS;
  api_get_repository :
    list Event -> string -> string ->
    option Repository * option Response * option error;
  api_get_branch :
    list Event -> string -> string -> string ->
    option Branch * option Response * option error;
  api_create_pull_request :
    list Event -> string -> string -> NewPullRequest ->
    option PullRequest * option Response * option error;
  io_failure : list Event -> option (error * list string);
  tag_failure : list Event -> option error;
  origin_failure : list Event -> option error;
  getwd : string * option error;
  current_repository : string * option error;
  latest_version_tag : string -> string * option error;
  read_file : string -> string * option error;
  json_strings : string -> list string * option error;
  elapsed : list Event -> Z;
}.

(** ** The monad: state, and a crash that keeps the world reached *)

Inductive outcome (A : Type) : Type :=
| Done (a : A) (w : World)
| Crash (why : string) (w : World).
Arguments Done {A} a w.
Arguments Crash {A} why w.

Definition M (A : Type) : Type := World -> outcome A.

Definition ret {A} (a : A) : M A := fun w => Done a w.

Definition bind {A B} (m : M A) (k : A -> M B) : M B :=
  fun w => match m w with
           | Done a w' => k a w'
           | Crash why w' => Crash why w'
           end.

Definition panic {A} (why : string) : M A := fun w => Crash why w.

Definition emit (e : Event) : M unit :=
  fun w => Done tt {| fs := fs w; tags := tags w; trace := trace w ++ [e] |}.

Definition history : M (list Event) := fun w => Done (trace w) w.

Definition get_fs : M FS := fun w => Done (fs w) w.

Definition put_fs (f : FS) : M unit :=
  fun w => Done tt {| fs := f; tags := tags w; trace := trace w |}.

Definition get_tags : M (gmap string string) := fun w => Done (tags w) w.

Definition put_tags (t : gmap string string) : M unit :=
  fun w => Done tt {| fs := fs w; tags := t; trace := trace w |}.

(** A pure panic lifted in the monad. *)
Definition lift {A} (r : result A) : M A :=
  match r with
  | Ok a => ret a
  | Panic msg => panic msg
  end.

Definition nil_dereference : string :=
  "runtime error: invalid memory address or nil pointer dereference".

Definition world_of {A} (o : outcome A) : World :=
  match o with
  | Done _ w => w
  | Crash _ w => w
  end.

End world.

Declare Scope go_scope.
Notation "'let*' x ':=' m 'in' k" :=
  (world.bind m (fun x => k))
  (at level 10, x pattern, m at level 100, k at level 200) : go_scope.
Notation "m ';;' k" :=
  (world.bind m (fun _ => k))
  (at level 100, k at level 200, right associativity) : go_scope.
Open Scope go_scope.

(* ===================================================================== *)
(** * Package [common]: the helpers that are not in [github.go] *)
(* ===================================================================== *)

Module files.
Import world.

(** [os.FileInfo], of which the program reads the name. *)
Record FileInfo : Type := mkFileInfo {
  Name : string;
}.

(** [p] is the directory [d] or lies below it. *)
Definition under (d p : string) : bool :=
  String.eqb p d || String.prefix (d +:+ "/") p.

(** The local path of the directory at [rel] in a tree rooted at [d]. *)
Definition reroot (d rel : string) : string :=
  match rel with
  | "" => d
  | _ => d +:+ "/" +:+ rel
  end.

Section WithEnv.
Variable env : Env.

(** Modelled from the spec: [PathExists], missing from the sources;
    it tells whether the path exists. *)
Definition PathExists (path : string) : M bool :=
  let* f := get_fs in
  let found := bool_decide (is_Some (f !! path)) in
  emit (EvPathExists path found) ;;
  ret found.

(** Modelled from the spec: [DeleteDirectory], missing from the
    sources; the working directory is deleted before each clone: the
    directory and everything below it go. *)
Definition DeleteDirectory (path : string) : M unit :=
  let* f := get_fs in
  put_fs (filter (fun kv => under path kv.1 = false) f) ;;
  emit (EvDeleteDirectory path).

(** Modelled from the spec: [CreateDirectory], missing from the
    sources; the target directory is created if absent, or an I/O error
    is returned. *)
Definition CreateDirectory (path : string) : M (option error) :=
  let* h := history in
  let* f := get_fs in
  emit (EvCreateDirectory path) ;;
  match io_failure env h with
  | Some (e, _) => ret (Some e)
  | None =>
      match f !! path with
      | Some _ => ret None
      | None => put_fs (<[path := ∅]> f) ;; ret None
      end
  end.

(** The files an operation reaches: all the selected ones, or, when an
    I/O error stops it, the selected ones among those handled before. *)
Definition reached (h : list Event) (selected : FileInfo -> bool)
    (name : string) : bool :=
  match io_failure env h with
  | None => selected (mkFileInfo name)
  | Some (_, handled) =>
      selected (mkFileInfo name) && bool_decide (name ∈ handled)
  end.

Definition io_error (h : list Event) : option error :=
  fst <$> io_failure env h.

Definition no_such_directory (dir : string) : error :=
  "open " +:+ dir +:+ ": no such file or directory".

(** Modelled from the spec: [DeleteSpecificFiles], missing from the
    sources; it deletes every selected file currently in the directory.
    An I/O error leaves the directory partially modified. *)
Definition DeleteSpecificFiles (dir : string)
    (selected : FileInfo -> bool) : M (option error) :=
  let* h := history in
  let* f := get_fs in
  emit (EvDeleteSpecificFiles dir) ;;
  match f !! dir with
  | None => ret (Some (no_such_directory dir))
  | Some present =>
      put_fs (<[dir :=
                filter (fun kv => reached h selected kv.1 = false) present]>
              f) ;;
      ret (io_error h)
  end.

(** Modelled from the spec: [CopySpecificFiles], missing from the
    sources; it copies every selected file of the source directory into
    the target directory, over a file of the same name. *)
Definition CopySpecificFiles (src dst : string)
    (selected : FileInfo -> bool) : M (option error) :=
  let* h := history in
  let* f := get_fs in
  emit (EvCopySpecificFiles src dst) ;;
  match f !! src, f !! dst with
  | None, _ => ret (Some (no_such_directory src))
  | _, None => ret (Some (no_such_directory dst))
  | Some offered, Some present =>
      put_fs (<[dst :=
                filter (fun kv => reached h selected kv.1 = true) offered
                ∪ present]> f) ;;
      ret (io_error h)
  end.

(** ** The git executable, as far as the working files go *)

(** [git clone] refuses a destination that exists and is not an empty
    directory. *)
Definition destination_free (dir : string) (f : FS) : bool :=
  bool_decide
    (map_Forall (fun p (files : gmap string string) =>
                   under dir p = true -> p = dir /\ files = ∅) f).

Definition exit_status_128 : error := "exit status 128".

(** What running [name args] does to the working files and how it ends:
    - [git clone url dir] creates [dir] with the tree served at [url];
    - [git checkout] rewrites working files as the outside decides;
    - every other command leaves the working files alone. *)
Definition process (h : list Event) (f : FS) (name : string)
    (args : list string) : option error * FS :=
  if negb (String.eqb name "git") then (exec_status env h name args, f)
  else
    match args with
    | sub :: rest =>
        if String.eqb sub "clone" then
          match rest with
          | [url; dir] =>
              match remote_tree env h url with
              | Some tree =>
                  if destination_free dir f
                  then (None,
                        kmap (reroot dir) tree
                        ∪ filter (fun kv => under dir kv.1 = false) f)
                  else (Some exit_status_128, f)
              | None => (Some exit_status_128, f)
              end
          | _ => (exec_status env h name args, f)
          end
        else if String.eqb sub "checkout" then
          match exec_status env h name args with
          | None => (None, checkout_tree env h f)
          | Some e => (Some e, f)
          end
        else (exec_status env h name args, f)
    | [] => (exec_status env h name args, f)
    end.






End WithEnv.
End files.

(* ===================================================================== *)
(** * [code/github.go] *)
(* ===================================================================== *)

Module github.
Import world files regexp.

Definition malformed_identifier : string :=
  "repository identifier was not in the correct format (i.e. "
  +:+ dq +:+ "owner/name" +:+ dq +:+ ")".

Definition RepoOwnerName (repo : string) : result (string * string) :=
  let ownerNameSlice := Split repo "/" in
  if (length ownerNameSlice <? 2)%nat then Panic malformed_identifier
  else Ok (nth 0 ownerNameSlice "", nth 1 ownerNameSlice "").

(** [`synced_.+\.y(a)?ml`] *)
Definition syncedFilePattern : Regexp :=
  Cat (Str "synced_")
    (Cat (Plus Dot)
       (Cat (Lit ".") (Cat (Lit "y") (Cat (Opt (Lit "a")) (Str "ml"))))).

Definition isSyncedFile (info : FileInfo) : bool :=
  MatchString syncedFilePattern (Name info).

(** [fmt.Sprintf("%v", response.StatusCode)[0] != '2'] *)
Definition isOk (response : Response) : bool :=
  match itoa (StatusCode response) with
  | String c _ => negb (Ascii.eqb c "2")
  | "" => false
  end.

Section WithEnv.
Variable env : Env.

Definition runCommand (name : string) (args : list string)
    : M (option error) :=
  emit (EvLog ("> " +:+ name +:+ " " +:+ Join args " ")) ;;
  let* h := history in
  let* f := get_fs in
  let '(err, f') := process env h f name args in
  put_fs f' ;;
  emit (EvExec name args err) ;;
  ret err.

Definition CloneRepository (repo dir : string) : M (option error) :=
  let* found := PathExists dir in
  (if found then DeleteDirectory dir else ret tt) ;;
  let repoUrl := "https://github.com/" +:+ repo +:+ ".git" in
  let* err := runCommand "git" ["clone"; repoUrl; dir] in
  match err with
  | Some err =>
      ret (Some ("could not clone git repository '" +:+ repo +:+ "' to '"
                 +:+ dir +:+ "': " +:+ err))
  | None =>
      let* err :=
        runCommand "git" ["remote"; "set-url"; "origin"; repoUrl] in
      match err with
      | Some err =>
          ret (Some ("could not clone git repository '" +:+ repo
                     +:+ "' to '" +:+ dir +:+ "': " +:+ err))
      | None => ret None
      end
  end.

(** The client holds the token only; without a token [log.Fatal] ends
    the process. *)
Definition getClient : M unit :=
  let token := GH_AUTH_TOKEN env in
  if String.eqb token "" then
    emit (EvLog "no GH_AUTH_TOKEN provided") ;;
    panic "no GH_AUTH_TOKEN provided"
  else ret tt.

Definition getDefaultBranch (owner name : string)
    : M (string * option error) :=
  let* h := history in
  emit (EvGetRepository owner name) ;;
  let '(repoInfo, _, err) := api_get_repository env h owner name in
  match err with
  | Some err =>
      ret ("", Some ("could not get repository info from '" +:+ owner
                     +:+ "/" +:+ name +:+ "': " +:+ err))
  | None => ret (GetDefaultBranch repoInfo, None)
  end.

Definition BranchExists (owner name branch : string)
    : M (bool * option error) :=
  let* h := history in
  emit (EvGetBranch owner name branch) ;;
  let '(branchInfo, response, err) :=
    api_get_branch env h owner name branch in
  match response with
  | None => panic nil_dereference
  | Some response =>
      if (StatusCode response =? 404)%Z then ret (false, None)
      else
        match err with
        | Some err =>
            ret (false,
                 Some ("could not get branch info from '" +:+ owner
                       +:+ "/" +:+ name +:+ "@" +:+ branch +:+ "': "
                       +:+ err))
        | None => ret (bool_decide (is_Some branchInfo), None)
        end
  end.

Definition DeleteBranch (owner name branch : string)
    : M (option error) :=
  let* (defaultBranch, err) := getDefaultBranch owner name in
  match err with
  | Some err =>
      ret (Some ("could not get default branch in '" +:+ owner +:+ "/"
                 +:+ name +:+ "': " +:+ err))
  | None =>
  let* err := runCommand "git" ["checkout"; defaultBranch] in
  match err with
  | Some err =>
      ret (Some ("could not checkout default branch '" +:+ owner +:+ "/"
                 +:+ name +:+ "@" +:+ defaultBranch +:+ "': " +:+ err))
  | None =>
  let* err := runCommand "git" ["branch"; "-D"; branch] in
  match err with
  | Some err =>
      ret (Some ("could not delete branch locally '" +:+ owner +:+ "/"
                 +:+ name +:+ "@" +:+ branch +:+ "': " +:+ err))
  | None =>
  let* err := runCommand "git" ["push"; "origin"; "--delete"; branch] in
  match err with
  | Some err =>
      ret (Some ("could not delete branch remotely '" +:+ owner +:+ "/"
                 +:+ name +:+ "@" +:+ branch +:+ "': " +:+ err))
  | None => ret None
  end end end end.

Definition CreateAndPushToNewBranch (owner name branch : string)
    : M (option error) :=
  let* (exists_, err) := BranchExists owner name branch in
  let* stop :=
    match err, exists_ with
    | None, true =>
        let* err := DeleteBranch owner name branch in
        match err with
        | Some err =>
            ret (Some ("could not delete old '" +:+ branch
                       +:+ "' branch: " +:+ err))
        | None => ret None
        end
    | Some err, _ =>
        ret (Some ("could not see if old '" +:+ branch
                   +:+ "' branch exists: " +:+ err))
    | None, false => ret None
    end in
  match stop with
  | Some err => ret (Some err)
  | None =>
  let* err := runCommand "git" ["checkout"; "-b"; branch] in
  match err with
  | Some err =>
      ret (Some ("could not checkout '" +:+ owner +:+ "/" +:+ name
                 +:+ "@" +:+ branch +:+ "': " +:+ err))
  | None =>
  let* err := runCommand "git" ["push"; "-u"; "origin"; branch] in
  match err with
  | Some err =>
      ret (Some ("could not push to remote '" +:+ owner +:+ "/" +:+ name
                 +:+ "@" +:+ branch +:+ "': " +:+ err))
  | None => ret None
  end end end.

Definition locallySync (targetRepo sourceRepoDir : string)
    : M (option error) :=
  let targetRepoDir := "TargetRepo" in
  let* err := CloneRepository targetRepo targetRepoDir in
  match err with
  | Some err => ret (Some err)
  | None =>
  let targetWorkflowPath := targetRepoDir +:+ "/.github/workflows" in
  let sourceWorkflowPath := sourceRepoDir +:+ "/.github/workflows" in
  let* found := PathExists targetWorkflowPath in
  let* stop :=
    if negb found then
      let* err := CreateDirectory env targetWorkflowPath in
      match err with
      | Some err =>
          ret (Some ("could not create workflow path for target repo '"
                     +:+ targetRepo +:+ "': " +:+ err))
      | None => ret None
      end
    else ret None in
  match stop with
  | Some err => ret (Some err)
  | None =>
  let* err := DeleteSpecificFiles env targetWorkflowPath isSyncedFile in
  match err with
  | Some err =>
      ret (Some ("could not delete synced workflow files from target repo '"
                 +:+ targetRepo +:+ "': " +:+ err))
  | None =>
  let* err :=
    CopySpecificFiles env sourceWorkflowPath targetWorkflowPath
      isSyncedFile in
  match err with
  | Some err =>
      ret (Some ("could not copy synced workflow files to target repo '"
                 +:+ targetRepo +:+ "': " +:+ err))
  | None => ret None
  end end end end.

Definition pull_request_format (head base cause : string) : error :=
  "could not create pull request from '" +:+ head +:+ "' to '" +:+ base
  +:+ "': " +:+ cause.

Definition SyncRepository (targetRepo sourceRepoDir : string)
    : M (option error) :=
  let* (owner, name) := lift (RepoOwnerName targetRepo) in
  getClient ;;
  let* (defaultBranch, err) := getDefaultBranch owner name in
  match err with
  | Some err => ret (Some err)
  | None =>
  let featureBranch := "sync-workflows" in
  let* err := CreateAndPushToNewBranch owner name featureBranch in
  match err with
  | Some err =>
      ret (Some ("could not create and push to new branch '"
                 +:+ featureBranch +:+ "': " +:+ err))
  | None =>
  let* err := locallySync targetRepo sourceRepoDir in
  match err with
  | Some err => ret (Some ("could not sync locally: " +:+ err))
  | None =>
  let pull := {| NewTitle := "(sync): update workflows";
                 NewHead := featureBranch;
                 NewBase := defaultBranch;
                 NewBody := "";
                 NewMaintainerCanModify := true |} in
  let* h := history in
  emit (EvCreatePullRequest owner name pull) ;;
  let '(_, response, err) :=
    api_create_pull_request env h owner name pull in
  match err, response with
  | Some err, _ =>
      ret (Some (pull_request_format featureBranch defaultBranch err))
  | None, None => panic nil_dereference
  | None, Some response =>
      if negb (isOk response) then
        ret (Some (pull_request_format featureBranch defaultBranch
                     (ResponseText response)))
      else ret None
  end end end end.

End WithEnv.
End github.

(* ===================================================================== *)
(** * Package [time]: durations as the report prints them *)
(* ===================================================================== *)

Module time.










End time.

(* ===================================================================== *)
(** * [code/sync-workflows/main.go] *)
(* ===================================================================== *)

Module sync_workflows.
Import world files regexp.

Record SyncedRepository : Type := mkSyncedRepository {
  Identifier : string;
  Error : option error;
  ElapsedTime : Z;
  PullRequest_ : option PullRequest;
}.






(** [`\r\n|[\r\n\v\f\x{0085}\x{2028}\x{2029}]`] on the bytes of a string:
    the length of the match at the start of [s], if any.  The first
    alternative is tried first; U+0085, U+2028 and U+2029 are the byte
    sequences C2 85, E2 80 A8 and E2 80 A9. *)
Definition newlinePattern (s : string) : option nat :=
  match s with
  | "" => None
  | String c1 s1 =>
      if Ascii.eqb c1 CR then
        match s1 with
        | String c2 _ => if Ascii.eqb c2 LF then Some 2%nat else Some 1%nat
        | "" => Some 1%nat
        end
      else if Ascii.eqb c1 LF || Ascii.eqb c1 VT || Ascii.eqb c1 FF
      then Some 1%nat
      else
        match s1 with
        | String c2 s2 =>
            if Ascii.eqb c1 xC2 && Ascii.eqb c2 x85 then Some 2%nat
            else
              match s2 with
              | String c3 _ =>
                  if Ascii.eqb c1 xE2 && Ascii.eqb c2 x80
                     && (Ascii.eqb c3 xA8 || Ascii.eqb c3 xA9)
                  then Some 3%nat else None
              | "" => None
              end
        | "" => None
        end
  end.

(** [pattern.ReplaceAllString(s, repl)] for a pattern that matches no
    empty string: matches are found left to right and do not overlap;
    [skip] counts the bytes left of the match being replaced. *)
Fixpoint ReplaceAllString_from (pattern : string -> option nat)
    (skip : nat) (s repl : string) : string :=
  match s with
  | "" => ""
  | String c rest =>
      match skip with
      | S skip' => ReplaceAllString_from pattern skip' rest repl
      | O =>
          match pattern s with
          | Some n => repl +:+ ReplaceAllString_from pattern (n - 1) rest repl
          | None => String c (ReplaceAllString_from pattern 0 rest repl)
          end
      end
  end.

Definition ReplaceAllString (pattern : string -> option nat)
    (s repl : string) : string :=
  ReplaceAllString_from pattern 0 s repl.






Fixpoint AnySyncedRepoHasError (syncedRepos : list SyncedRepository)
    : bool :=
  match syncedRepos with
  | [] => false
  | syncedRepo :: rest =>
      match Error syncedRepo with
      | Some _ => true
      | None => AnySyncedRepoHasError rest
      end
  end.



Section WithEnv.
Variable env : Env.

(** [common.SyncRepository] as this command calls it: with the version
    tag, and returning the pull request next to the error. *)
Variable SyncRepository :
  string -> string -> M (option PullRequest * option error).







End WithEnv.

(** The orchestrator of [code/github.go] behind the interface [main]
    calls: that revision returns the error alone, so the pull request
    reference is nil. *)
Definition SyncRepository_github (env : Env)
    (targetRepo sourceRepoDir : string)
    : M (option PullRequest * option error) :=
  let* err := github.SyncRepository env targetRepo sourceRepoDir in
  ret (None, err).

End sync_workflows.

(* ===================================================================== *)
(** * The vocabulary of the properties *)
(* ===================================================================== *)

Module spec.
Import world files sync_workflows.

(** The content of the file [name] of the directory [dir]. *)
Definition file_at (f : FS) (dir name : string) : option string :=
  f !! dir ≫= fun files : gmap string string => files !! name.

Definition yaml_extension (ext : string) : Prop :=
  ext = ".yml" \/ ext = ".yaml".

(** The managed-file pattern as the specification words it: the name is
    exactly [synced_<name>.yml] or [synced_<name>.yaml], [<name>] not
    empty. *)
Definition exactly_managed (s : string) : Prop :=
  exists name ext,
    name <> "" /\ yaml_extension ext /\ s = "synced_" +:+ name +:+ ext.

(** What the pattern of the code accepts: that form anywhere inside the
    name, [<name>] not empty and free of line feeds. *)
Definition contains_managed (s : string) : Prop :=
  exists before name ext after,
    name <> "" /\ contains_byte LF name = false /\ yaml_extension ext
    /\ s = before +:+ "synced_" +:+ name +:+ ext +:+ after.

(** A text is one line when it holds no carriage return and no line
    feed. *)
Definition one_line (s : string) : bool :=
  negb (contains_byte CR s || contains_byte LF s).

(** A line break of [newlinePattern] occurs somewhere in [s]. *)
Fixpoint has_line_break (s : string) : bool :=
  match s with
  | "" => false
  | String _ rest =>
      bool_decide (is_Some (newlinePattern s)) || has_line_break rest
  end.









(** Kinds of events. *)
Definition is_pull_request (e : Event) : bool :=
  match e with
  | EvCreatePullRequest _ _ _ => true
  | _ => false
  end.

Definition is_transfer (e : Event) : bool :=
  match e with
  | EvCreateDirectory _ | EvDeleteSpecificFiles _
  | EvCopySpecificFiles _ _ => true
  | _ => false
  end.

(** The event runs [git sub ...]. *)
Definition is_git (sub : string) (e : Event) : bool :=
  match e with
  | EvExec name (first :: _) _ => String.eqb name "git" && String.eqb first sub
  | _ => false
  end.

(** Neither a file transfer, nor a commit, nor a pull request. *)
Definition prepares (e : Event) : bool :=
  negb (is_transfer e) && negb (is_git "commit" e)
  && negb (is_pull_request e).





(** [w'] is [w] after more events, all of them accepted by [allowed]. *)
Definition extends (allowed : Event -> bool) (w w' : World) : Prop :=
  exists evs, trace w' = (trace w ++ evs)%list /\ forallb allowed evs = true.

(** [w'] has the tags of [w]. *)
Definition same_tags (w w' : World) : Prop := tags w' = tags w.

(** Every run of [m] takes the world to one related by [R]. *)
Definition steps (R : World -> World -> Prop) {A} (m : M A) : Prop :=
  forall w, R w (world_of (m w)).


End spec.

(* ===================================================================== *)
(** * Concrete outsides and worlds, to run the program on *)
(* ===================================================================== *)

Module scenario.
Import world files sync_workflows.

(** The workflow directory of a target with a managed file, a manual
    file and a file that has [synced_] inside its name. *)
Definition target_workflows : gmap string string :=
  {[ "synced_ci.yml" := "old ci";
     "manual.yml" := "manual";
     "unsynced_notes.yml" := "notes" ]}.

Definition source_workflows : gmap string string :=
  {[ "synced_ci.yml" := "new ci"; "manual.yml" := "other" ]}.

Definition target_tree : gmap string (gmap string string) :=
  {[ "" := {[ "README.md" := "target" ]};
     ".github/workflows" := target_workflows ]}.

(** A world with the source checked out in [src] and a stale clone. *)
Definition w0 : World :=
  {| fs := {[ "src/.github/workflows" := source_workflows;
              "TargetRepo" := {[ "stale.txt" := "previous target" ]};
              "TargetRepo/.github/workflows" := target_workflows ]};
     tags := {[ "last-synced" := "0ld" ]};
     trace := [] |}.

Definition created : Response := mkResponse 201 "201 Created".
Definition not_found : Response := mkResponse 404 "404 Not Found".

(** An outside where every call answers as on a good day: the feature
    branch does not exist yet and the pull request is created with
    status [code]. *)
Definition env_with (code : Z) : Env :=
  {| GH_AUTH_TOKEN := "token";
     head_commit := "c0ffee";
     exec_status := fun _ _ _ => None;
     checkout_tree := fun _ f => f;
     remote_tree := fun _ _ => Some target_tree;
     api_get_repository := fun _ _ _ =>
       (Some (mkRepository (Some "main")), Some (mkResponse 200 "200 OK"),
        None);
     api_get_branch := fun _ _ _ _ =>
       (None, Some not_found, Some "404 Not Found");
     api_create_pull_request := fun _ _ _ _ =>
       (Some (mkPullRequest (Some "(sync): update workflows")
                (Some "https://github.com/org/a/pull/12") (Some 12%Z)),
        Some (mkResponse code (itoa code)), None);
     io_failure := fun _ => None;
     tag_failure := fun _ => None;
     origin_failure := fun _ => None;
     getwd := ("/work", None);
     current_repository := ("workflow-sync-poc/common", None);
     latest_version_tag := fun _ => ("v2.3.1", None);
     read_file := fun _ => ("[...]", None);
     json_strings := fun _ => (["org/a"; "org/b"], None);
     elapsed := fun h => (Z.of_nat (length h) * 1000000000)%Z |}.

Definition env_ok : Env := env_with 201.

(** A lookup that fails in transport: an error and no response. *)
Definition env_transport_failure : Env :=
  {| GH_AUTH_TOKEN := GH_AUTH_TOKEN env_ok;
     head_commit := head_commit env_ok;
     exec_status := exec_status env_ok;
     checkout_tree := checkout_tree env_ok;
     remote_tree := remote_tree env_ok;
     api_get_repository := api_get_repository env_ok;
     api_get_branch := fun _ _ _ _ =>
       (None, None, Some "dial tcp: connection refused");
     api_create_pull_request := api_create_pull_request env_ok;
     io_failure := io_failure env_ok;
     tag_failure := tag_failure env_ok;
     origin_failure := origin_failure env_ok;
     getwd := getwd env_ok;
     current_repository := current_repository env_ok;
     latest_version_tag := latest_version_tag env_ok;
     read_file := read_file env_ok;
     json_strings := json_strings env_ok;
     elapsed := elapsed env_ok |}.








End scenario.

(* ===================================================================== *)
(** * Facts about strings *)
(* ===================================================================== *)

Module string_facts.

Lemma append_nil_r (s : string) : s +:+ "" = s.
Proof. induction s as [|c s IH]; simpl; [reflexivity | now rewrite IH]. Qed.

Lemma append_assoc (a b c : string) : (a +:+ b) +:+ c = a +:+ (b +:+ c).
Proof. induction a as [|x a IH]; simpl; [reflexivity | now rewrite IH]. Qed.

Lemma append_eq_nil (a b : string) : a +:+ b = "" -> a = "" /\ b = "".
Proof. destruct a; simpl; [auto | discriminate]. Qed.

Lemma append_inv_head (a b c : string) : a +:+ b = a +:+ c -> b = c.
Proof. induction a as [|x a IH]; simpl; [auto | intros [= H]; auto]. Qed.

Lemma append_length (a b : string) :
  String.length (a +:+ b) = (String.length a + String.length b)%nat.
Proof. induction a as [|x a IH]; simpl; [reflexivity | now rewrite IH]. Qed.

(** A split of [String c s] either starts in the empty piece or carries
    [c] in its first piece. *)
Lemma append_eq_cons (a b : string) (c : ascii) (s : string) :
  a +:+ b = String c s ->
  (a = "" /\ b = String c s) \/ (exists a', a = String c a' /\ s = a' +:+ b).
Proof.
  destruct a as [|x a]; simpl; intros H.
  - left; auto.
  - injection H as -> <-. right; eauto.
Qed.

Lemma contains_byte_append (c : ascii) (a b : string) :
  contains_byte c (a +:+ b) = contains_byte c a || contains_byte c b.
Proof.
  induction a as [|x a IH]; simpl; [reflexivity|].
  now rewrite IH, orb_assoc.
Qed.

End string_facts.

(* ===================================================================== *)
(** * The matcher decides the language *)
(* ===================================================================== *)

Module regexp_facts.
Import regexp string_facts.

Lemma cat_inv (r1 r2 : Regexp) (w : string) :
  matches (Cat r1 r2) w ->
  exists s1 s2, w = s1 +:+ s2 /\ matches r1 s1 /\ matches r2 s2.
Proof. inversion 1; subst; eauto. Qed.

Lemma class_inv (p : ascii -> bool) (w : string) :
  matches (Class p) w -> exists c, w = String c "" /\ p c = true.
Proof. inversion 1; subst; eauto. Qed.

Lemma alt_inv (r1 r2 : Regexp) (w : string) :
  matches (Alt r1 r2) w -> matches r1 w \/ matches r2 w.
Proof. inversion 1; subst; auto. Qed.

Lemma nullable_matches (r : Regexp) : nullable r = true <-> matches r "".
Proof.
  induction r as [| |p|r1 IH1 r2 IH2|r1 IH1 r2 IH2|r IH]; simpl.
  - split; [discriminate | inversion 1].
  - split; [constructor | reflexivity].
  - split; [discriminate | inversion 1].
  - rewrite andb_true_iff, IH1, IH2. split.
    + intros [H1 H2]. change "" with ("" +:+ ""). now constructor.
    + intros H. apply cat_inv in H as (s1 & s2 & E & H1 & H2).
      symmetry in E. apply append_eq_nil in E as [-> ->]. auto.
  - rewrite orb_true_iff, IH1, IH2. split.
    + intros [H|H]; [now apply m_alt_l | now apply m_alt_r].
    + apply alt_inv.
  - split; [constructor | reflexivity].
Qed.

(** A non-empty word of a star starts with a non-empty word of its body. *)
Lemma star_cons_inv (r : Regexp) (c : ascii) (s : string) :
  matches (Star r) (String c s) ->
  exists s1 s2, s = s1 +:+ s2 /\ matches r (String c s1)
                /\ matches (Star r) s2.
Proof.
  intros H. remember (Star r) as r' eqn:Er. remember (String c s) as w eqn:Ew.
  revert c s Ew.
  induction H as [| | | | | |r0 s1 s2 H1 _ H2 IH2]; try discriminate.
  injection Er as ->. intros c s Ew.
  destruct (append_eq_cons _ _ _ _ Ew) as [[-> E]|(a' & -> & ->)].
  - now apply IH2.
  - eauto.
Qed.

Lemma deriv_matches (r : Regexp) (c : ascii) (s : string) :
  matches (deriv c r) s <-> matches r (String c s).
Proof.
  revert s.
  induction r as [| |p|r1 IH1 r2 IH2|r1 IH1 r2 IH2|r IH]; intros s; simpl.
  - split; inversion 1.
  - split; inversion 1.
  - destruct (p c) eqn:Ep; split.
    + inversion 1; subst. now constructor.
    + intros H. apply class_inv in H as (x & [= -> ->] & _). constructor.
    + inversion 1.
    + intros H. apply class_inv in H as (x & [= -> ->] & Hx). congruence.
  - assert (Hcat : matches (Cat (deriv c r1) r2) s ->
                   matches (Cat r1 r2) (String c s)).
    { intros H. apply cat_inv in H as (s1 & s2 & -> & H1 & H2).
      change (String c (s1 +:+ s2)) with (String c s1 +:+ s2).
      constructor; [now apply IH1 | assumption]. }
    assert (Hinv : matches (Cat r1 r2) (String c s) ->
                   matches (Cat (deriv c r1) r2) s
                   \/ (matches r1 "" /\ matches r2 (String c s))).
    { intros H. apply cat_inv in H as (s1 & s2 & E & H1 & H2).
      symmetry in E.
      destruct (append_eq_cons _ _ _ _ E) as [[-> ->]|(a' & -> & ->)].
      - right; auto.
      - left. constructor; [now apply IH1 | assumption]. }
    destruct (nullable r1) eqn:En; split.
    + intros H. apply alt_inv in H as [H|H]; [now apply Hcat|].
      change (String c s) with ("" +:+ String c s).
      constructor; [now apply nullable_matches | now apply IH2].
    + intros H. destruct (Hinv H) as [H'|[_ H']].
      * now apply m_alt_l.
      * apply m_alt_r. now apply IH2.
    + apply Hcat.
    + intros H. destruct (Hinv H) as [H'|[H' _]]; [assumption|].
      apply nullable_matches in H'. congruence.
  - split.
    + intros H. apply alt_inv in H as [H|H];
        [apply m_alt_l; now apply IH1 | apply m_alt_r; now apply IH2].
    + intros H. apply alt_inv in H as [H|H];
        [apply m_alt_l; now apply IH1 | apply m_alt_r; now apply IH2].
  - split.
    + intros H. apply cat_inv in H as (s1 & s2 & -> & H1 & H2).
      change (String c (s1 +:+ s2)) with (String c s1 +:+ s2).
      constructor; [now apply IH | assumption].
    + intros H. apply star_cons_inv in H as (s1 & s2 & -> & H1 & H2).
      constructor; [now apply IH | assumption].
Qed.

Lemma match_here_spec (r : Regexp) (s : string) :
  match_here r s = true <-> exists p q, s = p +:+ q /\ matches r p.
Proof.
  revert r. induction s as [|c s IH]; intros r; simpl.
  - rewrite orb_false_r, nullable_matches. split.
    + intros H. exists "", "". auto.
    + intros (p & q & E & H). symmetry in E.
      apply append_eq_nil in E as [-> _]. assumption.
  - rewrite orb_true_iff, nullable_matches, IH. split.
    + intros [H|(p & q & -> & H)].
      * exists "", (String c s). auto.
      * exists (String c p), q. split; [reflexivity | now apply deriv_matches].
    + intros (p & q & E & H). symmetry in E.
      destruct (append_eq_cons _ _ _ _ E) as [[-> _]|(p' & -> & ->)].
      * now left.
      * right. exists p', q. split; [reflexivity | now apply deriv_matches].
Qed.

(** [MatchString] holds exactly when some substring is in the language. *)
Lemma MatchString_spec (r : Regexp) (s : string) :
  MatchString r s = true <->
  exists a p b, s = a +:+ p +:+ b /\ matches r p.
Proof.
  induction s as [|c s IH].
  - change (MatchString r "") with (match_here r "" || false).
    rewrite orb_false_r, match_here_spec. split.
    + intros (p & q & E & H). exists "", p, q. auto.
    + intros (a & p & b & E & H). symmetry in E.
      apply append_eq_nil in E as [-> E].
      apply append_eq_nil in E as [-> ->]. exists "", "". auto.
  - change (MatchString r (String c s))
      with (match_here r (String c s) || MatchString r s).
    rewrite orb_true_iff, match_here_spec, IH. split.
    + intros [(p & q & E & H)|(a & p & b & -> & H)].
      * exists "", p, q. auto.
      * exists (String c a), p, b. auto.
    + intros (a & p & b & E & H). destruct a as [|x a]; simpl in E.
      * left. eauto.
      * injection E as <- ->. right. eauto.
Qed.

Lemma matches_Str (s w : string) : matches (Str s) w <-> w = s.
Proof.
  revert w. induction s as [|c s IH]; intros w; simpl.
  - split; [now inversion 1 | intros ->; constructor].
  - split.
    + intros H. apply cat_inv in H as (s1 & s2 & -> & H1 & H2).
      apply class_inv in H1 as (x & -> & Hx). apply IH in H2 as ->.
      apply Ascii.eqb_eq in Hx as ->. reflexivity.
    + intros ->. change (String c s) with (String c "" +:+ s).
      constructor; [constructor; apply Ascii.eqb_refl | now apply IH].
Qed.

Lemma matches_Lit (c : ascii) (w : string) :
  matches (Lit c) w <-> w = String c "".
Proof.
  split.
  - intros H. apply class_inv in H as (x & -> & Hx).
    apply Ascii.eqb_eq in Hx as ->. reflexivity.
  - intros ->. constructor. apply Ascii.eqb_refl.
Qed.

(** The words of [.+]: not empty, and without a line feed. *)
Lemma matches_Star_Dot (w : string) :
  matches (Star Dot) w <-> contains_byte LF w = false.
Proof.
  split.
  - intros H. remember (Star Dot) as r eqn:Er.
    induction H as [| | | | | |r0 s1 s2 H1 _ H2 IH2]; try discriminate.
    + reflexivity.
    + injection Er as ->. rewrite contains_byte_append, IH2 by reflexivity.
      apply class_inv in H1 as (c & -> & Hc). simpl.
      apply negb_true_iff in Hc. now rewrite Hc.
  - induction w as [|c w IH]; simpl; intros H.
    + constructor.
    + apply orb_false_iff in H as [Hc Hw].
      change (String c w) with (String c "" +:+ w).
      constructor; [|now apply IH].
      constructor. now rewrite Hc.
Qed.

Lemma matches_Plus_Dot (w : string) :
  matches (Plus Dot) w <-> w <> "" /\ contains_byte LF w = false.
Proof.
  split.
  - intros H. apply cat_inv in H as (s1 & s2 & -> & H1 & H2).
    apply matches_Star_Dot in H2.
    apply class_inv in H1 as (c & -> & Hc). simpl. split; [discriminate|].
    apply negb_true_iff in Hc. now rewrite Hc.
  - intros [Hne H]. destruct w as [|c w]; [congruence|]. simpl in H.
    apply orb_false_iff in H as [Hc Hw].
    change (String c w) with (String c "" +:+ w).
    constructor; [|now apply matches_Star_Dot].
    constructor. now rewrite Hc.
Qed.

End regexp_facts.

(* ===================================================================== *)
(** * The managed-file pattern and the file transfer *)
(* ===================================================================== *)

Module managed_facts.
Import world files regexp github spec string_facts regexp_facts.

(** The words of [`synced_.+\.y(a)?ml`]. *)
Lemma matches_syncedFilePattern (p : string) :
  matches syncedFilePattern p <->
  exists name ext,
    name <> "" /\ contains_byte LF name = false /\ yaml_extension ext
    /\ p = "synced_" +:+ name +:+ ext.
Proof.
  unfold syncedFilePattern. split.
  - intros H.
    apply cat_inv in H as (s1 & t1 & -> & H1 & H).
    apply cat_inv in H as (s2 & t2 & -> & H2 & H).
    apply cat_inv in H as (s3 & t3 & -> & H3 & H).
    apply cat_inv in H as (s4 & t4 & -> & H4 & H).
    apply cat_inv in H as (s5 & t5 & -> & H5 & H6).
    apply matches_Str in H1 as ->. apply matches_Plus_Dot in H2 as [Hne Hlf].
    apply matches_Lit in H3 as ->. apply matches_Lit in H4 as ->.
    apply matches_Str in H6 as ->.
    apply alt_inv in H5 as [H5|H5].
    + apply matches_Lit in H5 as ->.
      exists s2, ".yaml". repeat split; auto. now right.
    + inversion H5; subst.
      exists s2, ".yml". repeat split; auto. now left.
  - intros (name & ext & Hne & Hlf & Hext & ->).
    constructor; [now apply matches_Str|].
    constructor; [now apply matches_Plus_Dot|].
    destruct Hext as [-> | ->].
    + change ".yml" with ("." +:+ "y" +:+ "" +:+ "ml").
      constructor; [now apply matches_Lit|].
      constructor; [now apply matches_Lit|].
      constructor; [apply m_alt_r; constructor | now apply matches_Str].
    + change ".yaml" with ("." +:+ "y" +:+ "a" +:+ "ml").
      constructor; [now apply matches_Lit|].
      constructor; [now apply matches_Lit|].
      constructor; [apply m_alt_l; now apply matches_Lit
                   | now apply matches_Str].
Qed.

(** The selection predicate accepts a name exactly when the form occurs
    somewhere inside it. *)
Lemma isSyncedFile_spec (info : FileInfo) :
  isSyncedFile info = true <-> contains_managed (Name info).
Proof.
  unfold isSyncedFile, contains_managed. rewrite MatchString_spec. split.
  - intros (a & p & b & E & H).
    apply matches_syncedFilePattern in H as (name & ext & Hne & Hlf & He & ->).
    exists a, name, ext, b. repeat split; auto.
    rewrite E. now rewrite !append_assoc.
  - intros (a & name & ext & b & Hne & Hlf & He & E).
    exists a, ("synced_" +:+ name +:+ ext), b. split.
    + rewrite E. now rewrite !append_assoc.
    + apply matches_syncedFilePattern. exists name, ext. auto.
Qed.

(** A name of the exact form is accepted when [<name>] has no line feed. *)
Lemma exactly_managed_accepted (s : string) :
  exactly_managed s -> contains_byte LF s = false ->
  isSyncedFile (mkFileInfo s) = true.
Proof.
  intros (name & ext & Hne & He & ->) Hlf. apply isSyncedFile_spec. simpl.
  exists "", name, ext, "". repeat split; auto.
  - rewrite !contains_byte_append in Hlf.
    apply orb_false_iff in Hlf as [_ Hlf].
    now apply orb_false_iff in Hlf as [Hlf _].
  - now rewrite append_nil_r.
Qed.

End managed_facts.

Module transfer_facts.
Import world files regexp github spec string_facts regexp_facts
  managed_facts.

Ltac run :=
  unfold bind, ret, panic, emit, history, get_fs, put_fs, get_tags,
    put_tags, world_of; simpl.

Lemma reached_unselected (env : Env) (h : list Event)
    (selected : FileInfo -> bool) (name : string) :
  selected (mkFileInfo name) = false -> reached env h selected name = false.
Proof.
  intros H. unfold reached. rewrite H. now destruct (io_failure env h) as [[]|].
Qed.

Lemma reached_no_failure (env : Env) (h : list Event)
    (selected : FileInfo -> bool) (name : string) :
  io_error env h = None ->
  reached env h selected name = selected (mkFileInfo name).
Proof.
  unfold io_error, reached. now destruct (io_failure env h) as [[]|].
Qed.

(** The file [name] of [dir] after the delete step. *)
Lemma DeleteSpecificFiles_file (env : Env) (dir : string)
    (selected : FileInfo -> bool) (w : World) (name : string) :
  file_at (fs (world_of (DeleteSpecificFiles env dir selected w))) dir name
  = if reached env (trace w) selected name then None
    else file_at (fs w) dir name.
Proof.
  unfold DeleteSpecificFiles, file_at. run.
  destruct (fs w !! dir) as [present|] eqn:Ed; simpl.
  - rewrite lookup_insert_eq. simpl. rewrite map_lookup_filter.
    destruct (present !! name); simpl; [|now destruct (reached _ _ _ _)].
    case_guard; simpl in *; destruct (reached _ _ _ _); congruence.
  - rewrite Ed. simpl. now destruct (reached _ _ _ _).
Qed.

(** The file [name] of [dst] after the copy step. *)
Lemma CopySpecificFiles_file (env : Env) (src dst : string)
    (selected : FileInfo -> bool) (w : World) (name : string) :
  file_at (fs (world_of (CopySpecificFiles env src dst selected w))) dst name
  = match fs w !! src, fs w !! dst with
    | Some offered, Some present =>
        if reached env (trace w) selected name
        then match offered !! name with
             | Some content => Some content
             | None => present !! name
             end
        else present !! name
    | _, _ => file_at (fs w) dst name
    end.
Proof.
  unfold CopySpecificFiles, file_at. run.
  destruct (fs w !! src) as [offered|] eqn:Es; simpl.
  - destruct (fs w !! dst) as [present|] eqn:Ed; simpl.
    + rewrite lookup_insert_eq. simpl.
      rewrite lookup_union, map_lookup_filter.
      destruct (offered !! name); simpl.
      * case_guard; simpl in *; destruct (reached _ _ _ _);
          try congruence; now destruct (present !! name).
      * destruct (reached _ _ _ _); now destruct (present !! name).
    + now rewrite Ed.
  - reflexivity.
Qed.

End transfer_facts.

Module C7.
Import world files regexp github spec scenario string_facts regexp_facts
  managed_facts transfer_facts.

(** C7, at the failing input: [unsynced_notes.yml] is not of the exact
    form [synced_<name>.yml], yet the pattern, which has no anchors,
    classifies it as a managed file, and the delete step removes it from
    the target directory. *)
Theorem managed_pattern_is_not_exact :
  isSyncedFile (mkFileInfo "unsynced_notes.yml") = true
  /\ ~ exactly_managed "unsynced_notes.yml"
  /\ file_at (fs w0) "TargetRepo/.github/workflows" "unsynced_notes.yml"
     = Some "notes"
  /\ file_at
       (fs (world_of
              (DeleteSpecificFiles env_ok "TargetRepo/.github/workflows"
                 isSyncedFile w0)))
       "TargetRepo/.github/workflows" "unsynced_notes.yml" = None.
Proof.
  split; [reflexivity|]. split.
  - intros (name & ext & _ & _ & E). discriminate E.
  - split; vm_compute; reflexivity.
Qed.

(** What the code does: a file name is classified as managed if and only
    if it contains [synced_<name>.yml] or [synced_<name>.yaml] somewhere,
    with [<name>] not empty and free of line feeds (case-sensitive).  The
    delete and the copy step leave every file that is not so classified
    as it was in the target directory; of a classified file, a delete
    step that succeeds leaves nothing, and a copy step that succeeds
    leaves the content of the source when the source has the file. *)
Lemma managed_files_only (env : Env) (w : World) (src tgt name : string) :
  (isSyncedFile (mkFileInfo name) = true <-> contains_managed name)
  /\ (isSyncedFile (mkFileInfo name) = false ->
      file_at (fs (world_of (DeleteSpecificFiles env tgt isSyncedFile w)))
        tgt name = file_at (fs w) tgt name
      /\ file_at
           (fs (world_of (CopySpecificFiles env src tgt isSyncedFile w)))
           tgt name = file_at (fs w) tgt name)
  /\ (isSyncedFile (mkFileInfo name) = true ->
      (forall w', DeleteSpecificFiles env tgt isSyncedFile w = Done None w' ->
                  file_at (fs w') tgt name = None)
      /\ (forall w', CopySpecificFiles env src tgt isSyncedFile w
                     = Done None w' ->
                     file_at (fs w') tgt name
                     = match file_at (fs w) src name with
                       | Some content => Some content
                       | None => file_at (fs w) tgt name
                       end)).
Proof.
  split; [apply (isSyncedFile_spec (mkFileInfo name))|]. split.
  - intros Hno. split.
    + rewrite DeleteSpecificFiles_file.
      now rewrite reached_unselected.
    + rewrite CopySpecificFiles_file.
      rewrite reached_unselected by assumption. unfold file_at.
      destruct (fs w !! src); destruct (fs w !! tgt); reflexivity.
  - intros Hyes. split; intros w' Hrun.
    + pose proof (DeleteSpecificFiles_file env tgt isSyncedFile w name) as H.
      rewrite Hrun in H. simpl in H. rewrite H.
      assert (io_error env (trace w) = None) as Hio.
      { revert Hrun. unfold DeleteSpecificFiles. run.
        destruct (fs w !! tgt); simpl; congruence. }
      now rewrite reached_no_failure, Hyes.
    + pose proof (CopySpecificFiles_file env src tgt isSyncedFile w name) as H.
      rewrite Hrun in H. simpl in H. rewrite H.
      revert Hrun. unfold CopySpecificFiles, file_at. run.
      destruct (fs w !! src) as [offered|]; simpl; [|congruence].
      destruct (fs w !! tgt) as [present|]; simpl; [|congruence].
      intros Hrun. assert (io_error env (trace w) = None) as Hio by congruence.
      now rewrite reached_no_failure, Hyes.
Qed.

(** [manual.yml] survives the copy although the source offers a file of
    that name. *)
Lemma manual_file_survives :
  isSyncedFile (mkFileInfo "manual.yml") = false
  /\ file_at
       (fs (world_of
              (CopySpecificFiles env_ok "src/.github/workflows"
                 "TargetRepo/.github/workflows" isSyncedFile w0)))
       "TargetRepo/.github/workflows" "manual.yml"
     = file_at (fs w0) "TargetRepo/.github/workflows" "manual.yml".
Proof.
  split; [reflexivity|].
  apply (managed_files_only env_ok w0 "src/.github/workflows"
           "TargetRepo/.github/workflows" "manual.yml").
  reflexivity.
Qed.

End C7.

(* ===================================================================== *)
(** * Repository identifiers *)
(* ===================================================================== *)

Module identifier_facts.
Import github string_facts.

(** The first piece of a split has no separator and is followed, in the
    string, by the end or by a separator and the string of the other
    pieces. *)
Lemma Split_first (sep : ascii) (s : string) :
  exists piece pieces,
    Split s sep = piece :: pieces
    /\ contains_byte sep piece = false
    /\ ((pieces = [] /\ s = piece)
        \/ exists rest, s = piece +:+ String sep rest
                        /\ pieces = Split rest sep).
Proof.
  induction s as [|c s (piece & pieces & E & Hp & Hs)]; simpl.
  - exists "", []. auto.
  - destruct (Ascii.eqb c sep) eqn:Ec.
    + apply Ascii.eqb_eq in Ec as ->.
      exists "", (Split s sep). repeat split; eauto.
    + rewrite E. exists (String c piece), pieces. repeat split.
      * simpl. now rewrite Ec.
      * destruct Hs as [[-> ->]|(rest & -> & ->)]; [left | right]; eauto.
Qed.


(** What the parsing returns on any string. *)
Lemma RepoOwnerName_shape (s : string) :
  (contains_byte "/" s = false
   /\ RepoOwnerName s = Panic malformed_identifier)
  \/ (exists owner name rest,
        s = owner +:+ "/" +:+ name +:+ rest
        /\ contains_byte "/" owner = false
        /\ contains_byte "/" name = false
        /\ (rest = "" \/ exists more, rest = "/" +:+ more)
        /\ RepoOwnerName s = Ok (owner, name)).
Proof.
  unfold RepoOwnerName.
  destruct (Split_first "/" s) as (owner & pieces & E & Ho & Hs).
  destruct Hs as [[-> ->]|(after & -> & ->)].
  - left. split; [assumption|]. now rewrite E.
  - right.
    destruct (Split_first "/" after) as (name & pieces & E' & Hn & Hs).
    rewrite E, E'. exists owner, name.
    destruct Hs as [[-> ->]|(more & -> & ->)].
    + exists "". rewrite append_nil_r. repeat split; auto.
    + exists ("/" +:+ more). repeat split; eauto.
Qed.

End identifier_facts.

Module C6.
Import github string_facts identifier_facts.

(** C6, as stated, fails twice: with a second [/] the name stops there
    instead of running to the end, and an empty owner or an empty name is
    returned, not rejected. *)
Lemma RepoOwnerName_stops_at_second_slash :
  RepoOwnerName "a/b/c" = Ok ("a", "b")
  /\ RepoOwnerName "a/b/c" <> Ok ("a", "b/c")
  /\ RepoOwnerName "/name" = Ok ("", "name")
  /\ RepoOwnerName "owner/" = Ok ("owner", "").
Proof. repeat split; try reflexivity. discriminate. Qed.

(** C6, amended: a string without [/] makes the parsing panic with the
    malformed-identifier error; any other string is cut at its first [/]
    and the pair returned is the text before it and the text between it
    and the next [/] (or the end); either part may be empty. *)
Theorem RepoOwnerName_cases (s : string) :
  (contains_byte "/" s = false
   /\ RepoOwnerName s = Panic malformed_identifier)
  \/ (exists owner name rest,
        s = owner +:+ "/" +:+ name +:+ rest
        /\ contains_byte "/" owner = false
        /\ contains_byte "/" name = false
        /\ (rest = "" \/ exists more, rest = "/" +:+ more)
        /\ RepoOwnerName s = Ok (owner, name)).
Proof. apply RepoOwnerName_shape. Qed.

End C6.

(* ===================================================================== *)
(** * The monad *)
(* ===================================================================== *)

Module monad_facts.
Import world.

Lemma bind_Done {A B} (m : M A) (k : A -> M B) (w w' : World) (b : B) :
  bind m k w = Done b w' ->
  exists a w1, m w = Done a w1 /\ k a w1 = Done b w'.
Proof. unfold bind. destruct (m w) as [a w1|why w1]; [eauto | discriminate]. Qed.

Lemma bind_Crash {A B} (m : M A) (k : A -> M B) (w w' : World)
    (why : string) :
  bind m k w = Crash why w' ->
  m w = Crash why w'
  \/ exists a w1, m w = Done a w1 /\ k a w1 = Crash why w'.
Proof.
  unfold bind. destruct (m w) as [a w1|why1 w1]; [eauto|].
  intros [= -> ->]. now left.
Qed.

Lemma bind_run {A B} (m : M A) (k : A -> M B) (w w1 : World) (a : A) :
  m w = Done a w1 -> bind m k w = k a w1.
Proof. unfold bind. now intros ->. Qed.


End monad_facts.

(* ===================================================================== *)
(** * The branch lookup and the pull request *)
(* ===================================================================== *)

Module C10.
Import world files github monad_facts transfer_facts.

(** C10: [BranchExists] looks at the status code of the response before
    it looks at the error.  A response with status 404 gives
    [(false, nil)] whatever the error; an error is returned only when a
    response came with it; and a lookup that yields no response (as a
    transport failure does) ends in a nil dereference, whatever the
    error. *)
Theorem BranchExists_reads_status_first (env : Env) (w : World)
    (owner name branch : string) (branchInfo : option Branch)
    (response : option Response) (err : option error) :
  api_get_branch env (trace w) owner name branch
  = (branchInfo, response, err) ->
  (forall r, response = Some r -> StatusCode r = 404%Z ->
             exists w', BranchExists env owner name branch w
                        = Done (false, None) w')
  /\ (forall found e w',
        BranchExists env owner name branch w = Done (found, Some e) w' ->
        exists r e0, response = Some r /\ err = Some e0
                     /\ StatusCode r <> 404%Z)
  /\ (response = None ->
      exists w', BranchExists env owner name branch w
                 = Crash nil_dereference w').
Proof.
  intros Hapi. unfold BranchExists. run. rewrite Hapi.
  split; [|split].
  - intros r -> Hr. rewrite Hr. simpl. eauto.
  - intros found e w'. destruct response as [r|]; [|discriminate].
    destruct (StatusCode r =? 404)%Z eqn:Hr; [discriminate|].
    destruct err as [e0|]; [|discriminate].
    intros _. exists r, e0. repeat split. now apply Z.eqb_neq.
  - intros ->. eauto.
Qed.

Lemma BranchExists_reads_status_first_witness :
  (exists w', BranchExists scenario.env_ok "org" "a" "sync-workflows"
                scenario.w0 = Done (false, None) w')
  /\ (exists w', BranchExists scenario.env_transport_failure "org" "a"
                   "sync-workflows" scenario.w0
                 = Crash nil_dereference w').
Proof.
  split.
  - apply (BranchExists_reads_status_first scenario.env_ok scenario.w0
             "org" "a" "sync-workflows" None (Some scenario.not_found)
             (Some "404 Not Found") eq_refl)
      with (r := scenario.not_found); reflexivity.
  - apply (BranchExists_reads_status_first scenario.env_transport_failure
             scenario.w0 "org" "a" "sync-workflows" None None
             (Some "dial tcp: connection refused") eq_refl).
    reflexivity.
Defined.

End C10.

Module C1.
Import world files github scenario monad_facts transfer_facts.

(** A status in the 2xx range is never [isOk]. *)
Lemma isOk_rejects_2xx (response : Response) :
  (200 <= StatusCode response <= 299)%Z -> isOk response = false.
Proof.
  destruct response as [code text]. cbn [StatusCode]. intros H.
  assert (forallb (fun code => negb (isOk (mkResponse code "")))
            (seqZ 200 100) = true) as Hall by (vm_compute; reflexivity).
  rewrite forallb_forall in Hall.
  apply negb_true_iff. apply (Hall code).
  apply list_elem_of_In, elem_of_seqZ. lia.
Qed.

(** The pull request step of a sync that ends well: the call gave no
    error and a response whose status is outside the 2xx range. *)
Lemma SyncRepository_success_is_not_2xx (env : Env)
    (targetRepo sourceRepoDir : string) (w w' : World) :
  SyncRepository env targetRepo sourceRepoDir w = Done None w' ->
  exists h owner name pull pr response,
    api_create_pull_request env h owner name pull
    = (pr, Some response, None)
    /\ ~ (200 <= StatusCode response <= 299)%Z.
Proof.
  unfold SyncRepository. intros H.
  apply bind_Done in H as ([owner name] & w1 & _ & H).
  apply bind_Done in H as (_ & w2 & _ & H).
  apply bind_Done in H as ([defaultBranch err] & w3 & _ & H).
  destruct err; [discriminate|].
  apply bind_Done in H as (err & w4 & _ & H).
  destruct err; [discriminate|].
  apply bind_Done in H as (err & w5 & _ & H).
  destruct err; [discriminate|].
  revert H. run.
  destruct (api_create_pull_request env (trace w5) owner name _)
    as [[pr response] err] eqn:Hapi.
  destruct err; [discriminate|].
  destruct response as [response|]; [|discriminate].
  destruct (isOk response) eqn:Hok; simpl; [|discriminate].
  intros _. eexists _, _, _, _, _, _. split; [exact Hapi|].
  intros Hrange. apply isOk_rejects_2xx in Hrange. congruence.
Qed.

(** C1, at the failing input: the call that creates the pull request
    returns no error and the status 201; [SyncRepository] returns the
    could-not-create-pull-request error.  With no error and the status
    404 it returns nil. *)
Theorem SyncRepository_fails_on_201 :
  (exists w',
     SyncRepository env_ok "org/a" "src" w0
     = Done (Some "could not create pull request from 'sync-workflows' to 'main': 201") w')
  /\ (exists w',
        SyncRepository (env_with 404) "org/a" "src" w0 = Done None w').
Proof.
  split; eexists; vm_compute; reflexivity.
Qed.

End C1.

(* ===================================================================== *)
(** * Flattening the error messages *)
(* ===================================================================== *)

Module flatten_facts.
Import sync_workflows spec string_facts.

Lemma RAF_cons (c : ascii) (rest : string) :
  ReplaceAllString_from newlinePattern 0 (String c rest) "; "
  = match newlinePattern (String c rest) with
    | Some n =>
        "; " +:+ ReplaceAllString_from newlinePattern (n - 1) rest "; "
    | None => String c (ReplaceAllString_from newlinePattern 0 rest "; ")
    end.
Proof. reflexivity. Qed.







(** A text without line break is left as it is. *)
Lemma flatten_without_line_break (s : string) :
  has_line_break s = false -> ReplaceAllString newlinePattern s "; " = s.
Proof.
  unfold ReplaceAllString.
  induction s as [|c rest IH]; [reflexivity|].
  cbn [has_line_break]. intros H. apply orb_false_iff in H as [Hc Hrest].
  rewrite RAF_cons.
  destruct (newlinePattern (String c rest)) as [n|].
  - apply bool_decide_eq_false in Hc. destruct Hc. eauto.
  - now rewrite IH.
Qed.

End flatten_facts.

(* ===================================================================== *)
(** * The report *)
(* ===================================================================== *)

Module report_facts.
Import world sync_workflows spec string_facts identifier_facts
  flatten_facts.

Lemma contains_byte_one_line (s : string) :
  one_line s = true <->
  contains_byte CR s = false /\ contains_byte LF s = false.
Proof. unfold one_line. rewrite negb_true_iff. apply orb_false_iff. Qed.










Lemma Join_two (a b sep : string) : Join [a; b] sep = a +:+ sep +:+ b.
Proof. reflexivity. Qed.


End report_facts.

Module C8.
Import world sync_workflows spec scenario string_facts flatten_facts
  report_facts.




End C8.

(* ===================================================================== *)
(** * The loop over the targets *)
(* ===================================================================== *)

Module loop_facts.
Import world files sync_workflows spec monad_facts transfer_facts
  report_facts.

Section Loop.
Variable env : Env.
Variable Sync : string -> string -> M (option PullRequest * option error).
Variable versionTag : string.








End Loop.




End loop_facts.

(* ===================================================================== *)
(** * The run *)
(* ===================================================================== *)

Module run_facts.
Import world files sync_workflows spec monad_facts transfer_facts
  report_facts loop_facts.








End run_facts.

Module C3.
Import world files sync_workflows spec scenario monad_facts report_facts
  loop_facts run_facts.



End C3.

Module C2.
Import world files sync_workflows spec scenario monad_facts report_facts
  loop_facts run_facts.




End C2.

Module C5.
Import world files sync_workflows spec scenario monad_facts report_facts
  loop_facts run_facts.




End C5.

(* ===================================================================== *)
(** * What a computation adds to the trace *)
(* ===================================================================== *)

Module trace_facts.
Import world files github spec monad_facts transfer_facts.

Section Extends.
Variable allowed : Event -> bool.

Lemma extends_refl (w : World) : extends allowed w w.
Proof. exists []. now rewrite app_nil_r. Qed.

Lemma extends_trans (a b c : World) :
  extends allowed a b -> extends allowed b c -> extends allowed a c.
Proof.
  intros (e1 & H1 & A1) (e2 & H2 & A2). exists (e1 ++ e2)%list.
  rewrite H2, H1, <- app_assoc. split; [reflexivity|].
  rewrite forallb_app. now rewrite A1, A2.
Qed.

Lemma steps_ret {A} (a : A) : steps (extends allowed) (ret a).
Proof. intros w. apply extends_refl. Qed.

Lemma steps_panic {A} (why : string) :
  steps (extends allowed) (panic (A := A) why).
Proof. intros w. apply extends_refl. Qed.

Lemma steps_lift {A} (r : result A) : steps (extends allowed) (lift r).
Proof. destruct r; [apply steps_ret | apply steps_panic]. Qed.

Lemma steps_history : steps (extends allowed) history.
Proof. intros w. apply extends_refl. Qed.

Lemma steps_get_fs : steps (extends allowed) get_fs.
Proof. intros w. apply extends_refl. Qed.

Lemma steps_put_fs (f : FS) : steps (extends allowed) (put_fs f).
Proof. intros w. exists []. simpl. now rewrite app_nil_r. Qed.

Lemma steps_emit (e : Event) :
  allowed e = true -> steps (extends allowed) (emit e).
Proof. intros H w. exists [e]. simpl. now rewrite H. Qed.

Lemma steps_bind {A B} (m : M A) (k : A -> M B) :
  steps (extends allowed) m -> (forall a, steps (extends allowed) (k a)) ->
  steps (extends allowed) (bind m k).
Proof.
  intros Hm Hk w. specialize (Hm w). unfold bind.
  destruct (m w) as [a w1|why w1]; simpl in *; [|assumption].
  eapply extends_trans; [exact Hm | apply Hk].
Qed.

End Extends.

(** Breaks a computation into its steps. *)
Ltac steps_go :=
  repeat first
    [ apply steps_ret
    | apply steps_panic
    | apply steps_lift
    | apply steps_history
    | apply steps_get_fs
    | apply steps_put_fs
    | apply steps_emit; reflexivity
    | apply steps_bind; [|intros ?]
    | match goal with
      | |- steps _ (match ?x with _ => _ end) => destruct x
      | |- steps _ (if ?b then _ else _) => destruct b
      | |- steps _ (let '(_, _) := ?x in _) => destruct x
      end ].



Lemma PathExists_prepares (path : string) :
  steps (extends prepares) (PathExists path).
Proof. unfold PathExists. steps_go. Qed.

Lemma DeleteDirectory_prepares (path : string) :
  steps (extends prepares) (DeleteDirectory path).
Proof. unfold DeleteDirectory. steps_go. Qed.

Lemma CloneRepository_prepares (env : Env) (repo dir : string) :
  steps (extends prepares) (CloneRepository env repo dir).
Proof.
  unfold CloneRepository, PathExists, DeleteDirectory, runCommand.
  steps_go.
Qed.













End trace_facts.

(* ===================================================================== *)
(** * The tags are left alone by a sync attempt *)
(* ===================================================================== *)

Module tags_facts.
Import world files github sync_workflows spec monad_facts transfer_facts.

Lemma keeps_ret {A} (a : A) : steps same_tags (ret a).
Proof. intros w. reflexivity. Qed.

Lemma keeps_panic {A} (why : string) : steps same_tags (panic (A := A) why).
Proof. intros w. reflexivity. Qed.

Lemma keeps_lift {A} (r : result A) : steps same_tags (lift r).
Proof. destruct r; [apply keeps_ret | apply keeps_panic]. Qed.

Lemma keeps_history : steps same_tags history.
Proof. intros w. reflexivity. Qed.

Lemma keeps_get_fs : steps same_tags get_fs.
Proof. intros w. reflexivity. Qed.

Lemma keeps_put_fs (f : FS) : steps same_tags (put_fs f).
Proof. intros w. reflexivity. Qed.

Lemma keeps_emit (e : Event) : steps same_tags (emit e).
Proof. intros w. reflexivity. Qed.

Lemma keeps_bind {A B} (m : M A) (k : A -> M B) :
  steps same_tags m -> (forall a, steps same_tags (k a)) ->
  steps same_tags (bind m k).
Proof.
  intros Hm Hk w. specialize (Hm w). unfold bind.
  destruct (m w) as [a w1|why w1]; simpl in *; [|assumption].
  unfold same_tags in *. rewrite <- Hm. apply Hk.
Qed.

Ltac keeps_go :=
  repeat first
    [ apply keeps_ret
    | apply keeps_panic
    | apply keeps_lift
    | apply keeps_history
    | apply keeps_get_fs
    | apply keeps_put_fs
    | apply keeps_emit
    | apply keeps_bind; [|intros ?]
    | match goal with
      | |- steps _ (match ?x with _ => _ end) => destruct x
      | |- steps _ (if ?b then _ else _) => destruct b
      end ].

Lemma SyncRepository_keeps_tags (env : Env)
    (targetRepo sourceRepoDir : string) :
  steps same_tags (SyncRepository env targetRepo sourceRepoDir).
Proof.
  unfold SyncRepository, getClient, getDefaultBranch,
    CreateAndPushToNewBranch, BranchExists, DeleteBranch, getDefaultBranch,
    locallySync, CloneRepository, PathExists, DeleteDirectory,
    CreateDirectory, DeleteSpecificFiles, CopySpecificFiles, runCommand.
  keeps_go.
Qed.

(** The orchestrator of [code/github.go] never touches the tags. *)
Lemma SyncRepository_github_keeps_tags (env : Env)
    (targetRepo versionTag : string) (w : World) :
  tags (world_of (SyncRepository_github env targetRepo versionTag w))
  = tags w.
Proof.
  assert (steps same_tags (SyncRepository_github env targetRepo versionTag))
    as H.
  { unfold SyncRepository_github. apply keeps_bind.
    - apply SyncRepository_keeps_tags.
    - intros a. apply keeps_ret. }
  apply H.
Qed.

End tags_facts.

Module C4.
Import world files github spec scenario monad_facts trace_facts.





End C4.

(* ===================================================================== *)
(** * The clone *)
(* ===================================================================== *)

Module clone_facts.
Import world files github spec monad_facts transfer_facts string_facts
  trace_facts.

Lemma prefix_append (a b : string) : String.prefix a (a +:+ b) = true.
Proof.
  induction a as [|c a IH]; simpl.
  - now destruct b.
  - destruct (ascii_dec c c); [assumption | congruence].
Qed.

Lemma under_reroot (d rel : string) : under d (reroot d rel) = true.
Proof.
  unfold under, reroot. destruct rel as [|c rel].
  - now rewrite String.eqb_refl.
  - apply orb_true_iff. right.
    rewrite <- append_assoc. apply prefix_append.
Qed.

Lemma reroot_inj (d : string) : Inj (=) (=) (reroot d).
Proof.
  intros [|c1 r1] [|c2 r2]; unfold reroot; intros E.
  - reflexivity.
  - apply (f_equal String.length) in E. rewrite append_length in E.
    simpl in E. lia.
  - apply (f_equal String.length) in E. rewrite append_length in E.
    simpl in E. lia.
  - apply append_inv_head in E. now injection E as -> ->.
Qed.

(** A clone that succeeds leaves, at and below the directory, the tree
    that was served and nothing else. *)
Lemma CloneRepository_Done_None (env : Env) (repo dir : string)
    (w w' : World) :
  CloneRepository env repo dir w = Done None w' ->
  exists h tree f0,
    remote_tree env h ("https://github.com/" +:+ repo +:+ ".git")
    = Some tree
    /\ fs w' = kmap (reroot dir) tree
               ∪ filter (fun kv => under dir kv.1 = false) f0.
Proof.
  unfold CloneRepository, PathExists, DeleteDirectory, runCommand, process.
  run.
  destruct (bool_decide (is_Some (fs w !! dir))); simpl;
    (destruct (remote_tree env _ _) as [tree|] eqn:Etree; simpl;
     [|discriminate]);
    (destruct (destination_free dir _); simpl; [|discriminate]);
    (destruct (exec_status env _ _ _); simpl; [discriminate|]);
    intros [= <-]; simpl; eauto.
Qed.

Lemma cloned_lookup (d : string) (tree f0 : gmap string (gmap string string))
    (p : string) :
  under d p = true ->
  ((kmap (reroot d) tree : gmap string (gmap string string))
   ∪ filter (fun kv => under d kv.1 = false) f0) !! p
  = (kmap (reroot d) tree : gmap string (gmap string string)) !! p.
Proof.
  intros Hp. apply lookup_union_l. apply map_lookup_filter_None.
  right. intros files _. simpl. congruence.
Qed.

End clone_facts.

Module clone_order.
Import world files github spec monad_facts transfer_facts string_facts
  trace_facts clone_facts.

#[local] Arguments process : simpl never.

(** The events of [CloneRepository]: the test of the directory, its
    deletion when it exists, then the clone. *)
Lemma CloneRepository_trace (env : Env) (repo dir : string) (w : World) :
  exists err w1 status rest,
    CloneRepository env repo dir w = Done err w1
    /\ trace w1
       = (trace w
          ++ [EvPathExists dir (bool_decide (is_Some (fs w !! dir)))]
          ++ (if bool_decide (is_Some (fs w !! dir))
              then [EvDeleteDirectory dir] else [])
          ++ [EvLog ("> " +:+ "git" +:+ " "
                     +:+ Join ["clone";
                               "https://github.com/" +:+ repo +:+ ".git";
                               dir] " ");
              EvExec "git"
                ["clone"; "https://github.com/" +:+ repo +:+ ".git"; dir]
                status]
          ++ rest)%list
    /\ forallb prepares rest = true
    /\ (status <> None -> err <> None).
Proof.
  unfold CloneRepository, PathExists, DeleteDirectory, runCommand.
  run.
  destruct (bool_decide (is_Some (fs w !! dir))); simpl;
    (match goal with
     | |- context [process env ?h ?f "git" ?args] =>
         destruct (process env h f "git" args) as [status f1]
     end;
     simpl; destruct status as [e|]; simpl;
     [ eexists _, _, _, []; split; [reflexivity|]; simpl;
       rewrite <- ?app_assoc; simpl;
       (split; [reflexivity|]); (split; [reflexivity|]);
       intros _; discriminate
     | match goal with
       | |- context [exec_status env ?h ?n ?args] =>
           destruct (exec_status env h n args) as [status2|]
       end;
       simpl;
       eexists _, _, _, [_; _]; (split; [reflexivity|]); simpl;
       rewrite <- ?app_assoc; simpl;
       (split; [reflexivity|]); (split; [reflexivity|]);
       intros H; congruence ]).
Qed.

(** [locallySync] goes on after the clone only when it succeeded. *)
Lemma locallySync_after_clone (env : Env) (targetRepo sourceRepoDir : string)
    (w w1 : World) (err : option error) :
  CloneRepository env targetRepo "TargetRepo" w = Done err w1 ->
  (forall e, err = Some e ->
             locallySync env targetRepo sourceRepoDir w = Done (Some e) w1)
  /\ exists later,
       trace (world_of (locallySync env targetRepo sourceRepoDir w))
       = (trace w1 ++ later)%list
       /\ (err <> None -> later = []).
Proof.
  intros Hclone. unfold locallySync. rewrite (bind_run _ _ _ _ _ Hclone).
  split.
  - intros e ->. reflexivity.
  - destruct err as [e|].
    + exists []. simpl. now rewrite app_nil_r.
    + match goal with
      | |- context [world_of (?k w1)] =>
          assert (steps (extends (fun _ => true)) k) as Hk
      end.
      { unfold PathExists, CreateDirectory, DeleteSpecificFiles,
          CopySpecificFiles. steps_go. }
      destruct (Hk w1) as (later & T & _). exists later.
      split; [exact T | congruence].
Qed.

(** Whatever the clone directory held, it is free after its deletion. *)
Lemma destination_free_after_delete (dir : string)
    (f : gmap string (gmap string string)) :
  destination_free dir (filter (fun kv => under dir kv.1 = false) f) = true.
Proof.
  unfold destination_free. apply bool_decide_eq_true.
  apply map_Forall_lookup. intros p files Hp Hunder.
  apply map_lookup_filter_Some in Hp as [_ Hp]. simpl in Hp. congruence.
Qed.

End clone_order.

Module C9.
Import world files github spec scenario monad_facts transfer_facts
  string_facts trace_facts clone_facts clone_order.

(** C9: in every sync attempt the file transfer starts with
    [CloneRepository] on the shared directory [TargetRepo]: the
    directory is tested, deleted when it exists, and then cloned.  The
    events of the clone hold no file-transfer operation; when the clone
    fails [locallySync] returns its error and does nothing more, so
    every file-transfer operation comes after a clone that succeeded.
    After such a clone the directories at and below [TargetRepo] are
    those of the tree that was served for the target and no other:
    nothing of a target processed before is left.  A stale clone never
    makes the clone fail. *)
Theorem clone_before_transfer (env : Env)
    (targetRepo sourceRepoDir : string) (w : World) :
  exists err w1 status rest later,
    CloneRepository env targetRepo "TargetRepo" w = Done err w1
    /\ trace w1
       = (trace w
          ++ [EvPathExists "TargetRepo"
                (bool_decide (is_Some (fs w !! "TargetRepo")))]
          ++ (if bool_decide (is_Some (fs w !! "TargetRepo"))
              then [EvDeleteDirectory "TargetRepo"] else [])
          ++ [EvLog ("> " +:+ "git" +:+ " "
                     +:+ Join ["clone";
                               "https://github.com/" +:+ targetRepo
                               +:+ ".git";
                               "TargetRepo"] " ");
              EvExec "git"
                ["clone"; "https://github.com/" +:+ targetRepo +:+ ".git";
                 "TargetRepo"]
                status]
          ++ rest)%list
    /\ forallb prepares rest = true
    /\ (status <> None -> err <> None)
    /\ (forall e, err = Some e ->
                  locallySync env targetRepo sourceRepoDir w
                  = Done (Some e) w1)
    /\ trace (world_of (locallySync env targetRepo sourceRepoDir w))
       = (trace w1 ++ later)%list
    /\ (err <> None -> later = [])
    /\ (err = None ->
        exists h tree,
          remote_tree env h ("https://github.com/" +:+ targetRepo +:+ ".git")
          = Some tree
          /\ (forall rel, fs w1 !! reroot "TargetRepo" rel = tree !! rel)
          /\ (forall p files,
                under "TargetRepo" p = true -> fs w1 !! p = Some files ->
                exists rel, p = reroot "TargetRepo" rel
                            /\ tree !! rel = Some files))
    /\ (is_Some (fs w !! "TargetRepo") ->
        (forall h url, is_Some (remote_tree env h url)) ->
        (forall h name args, exec_status env h name args = None) ->
        err = None).
Proof.
  destruct (CloneRepository_trace env targetRepo "TargetRepo" w)
    as (err & w1 & status & rest & Hclone & Htrace & Hrest & Hstatus).
  destruct (locallySync_after_clone env targetRepo sourceRepoDir w w1 err
              Hclone) as (Hstop & later & Hlater & Hnone).
  exists err, w1, status, rest, later.
  repeat (split; [assumption|]). split.
  - intros ->.
    apply CloneRepository_Done_None in Hclone
      as (h & tree & f0 & Htree & Hfs).
    exists h, tree. split; [assumption|]. split.
    + intros rel. rewrite Hfs.
      rewrite cloned_lookup by apply under_reroot.
      apply (lookup_kmap (reroot "TargetRepo")
               (Inj0 := reroot_inj "TargetRepo")).
    + intros p files Hp. rewrite Hfs, cloned_lookup by assumption.
      intros Hl.
      apply (lookup_kmap_Some (reroot "TargetRepo")
               (Inj0 := reroot_inj "TargetRepo")) in Hl.
      exact Hl.
  - intros Hfound Hserved Hexec. revert Hclone.
    unfold CloneRepository, PathExists, DeleteDirectory, runCommand, process.
    run. rewrite (bool_decide_eq_true_2 _ Hfound). simpl.
    match goal with
    | |- context [remote_tree env ?h ?u] =>
        destruct (Hserved h u) as [tree Htree]; rewrite Htree
    end.
    rewrite destination_free_after_delete. simpl.
    rewrite Hexec. simpl. intros [= <- _]. reflexivity.
Qed.

(** The theorem at work: a stale clone is in the way, the clone
    succeeds all the same and the directory holds what was served. *)
Lemma clone_before_transfer_witness :
  exists w1,
    CloneRepository env_ok "org/a" "TargetRepo" w0 = Done None w1
    /\ fs w1 !! "TargetRepo" = target_tree !! "".
Proof.
  destruct (clone_before_transfer env_ok "org/a" "src" w0)
    as (err & w1 & status & rest & later & Hclone & _ & _ & _ & _ & _ & _
        & Hfresh & Hlive).
  assert (err = None) as ->.
  { apply Hlive.
    - vm_compute. eauto.
    - intros h url. simpl. eauto.
    - reflexivity. }
  exists w1. split; [assumption|].
  destruct (Hfresh eq_refl) as (h & tree & Htree & Hat & _).
  injection Htree as <-. exact (Hat "").
Defined.

End C9.
